(** * Supbot2: the screen-state reconciler, the action dispatcher and the
      new-chat checker of [supbot/service_manager.py], with the event
      dispatch of [supbot/system.py].

    The Python functions are embedded as functions of a small state and
    exception monad over a [World] that holds the gesture driver, the action
    buffer, the log sink and the state of the embedding application.  The
    driver, the registered callbacks and the action registry are external
    collaborators: they are parameters of the development, so every theorem
    holds for every driver behaviour. *)

From Stdlib Require Import ZArith Ascii.
From stdpp Require Import base option list strings gmap.

Local Open Scope Z_scope.

(** ** The pattern [\d{11,13}] of [re.search] (service_manager.py, line 104)

    Python strings are modelled by [string], a sequence of characters with
    code points 0..255; on those, [\d] (Unicode category Nd) is exactly the
    range '0'..'9'. *)
Module Re.

(** [\d] on one character. *)
Definition is_digit (c : ascii) : bool :=
  ((48 <=? nat_of_ascii c) && (nat_of_ascii c <=? 57))%nat.

(** Greedy repetition of [\d], at most [hi] times, anchored at the start of
    [s]: the number of characters consumed. *)
Fixpoint take_digits (hi : nat) (s : string) : nat :=
  match hi, s with
  | S hi', String c s' => if is_digit c then S (take_digits hi' s') else O
  | _, _ => O
  end.

(** [\d{lo,hi}] anchored at the start of [s]: the length of the match. *)
Definition match_digits (lo hi : nat) (s : string) : option nat :=
  let n := take_digits hi s in
  if (lo <=? n)%nat then Some n else None.

(** [re.search] for [\d{lo,hi}]: the leftmost position where the pattern
    matches, as the span [(start, end)] of the match object; [None] when
    there is no match. *)
Fixpoint search_digits (lo hi : nat) (s : string) : option (nat * nat) :=
  match match_digits lo hi s with
  | Some n => Some (O, n)
  | None =>
      match s with
      | EmptyString => None
      | String _ s' =>
          match search_digits lo hi s' with
          | Some (b, e) => Some (S b, S e)
          | None => None
          end
      end
  end.

(** [re.search("\d{11,13}", s)] used as a condition: a match object is
    truthy, [None] is falsy. *)
Definition search_phone (s : string) : bool :=
  match search_digits 11 13 s with Some _ => true | None => false end.




End Re.

(** ** Data model ([supbot/model.py]) *)

(** Modelled from the spec: the class [GUIState] of [supbot/model.py], which
    is not among the sources.  The believed screen is a tagged variant:
    [Main] is [GUIState(State.MAIN)], without payload, and [Chat x] is
    [GUIState(State.CHAT, x)], whose [info] is the chat identifier [x]. *)
Inductive GUIState : Type :=
| Main
| Chat (info : string).

#[global] Instance GUIState_eq_dec : EqDecision GUIState.
Proof. solve_decision. Defined.

(** Modelled from the spec: the enumeration [Event] of [supbot/model.py]; the
    sources name one member, [Event.MESSAGE_RECEIVED]. *)
Inductive Event : Type := MESSAGE_RECEIVED.

(** A message as [driver.get_new_messages()] lists them. *)
Definition Message : Type := string.

(** The parameters [(chat.name, m)] of a "message received" event. *)
Definition EventParams : Type := string * Message.

(** The chat handle that [driver.get_new_chat()] returns; the sources read
    its [name]. *)
Record ChatHandle : Type := { chat_name : string }.

(** The Python exceptions that the embedded code raises or catches;
    [UserError] is whatever a registered callback or handler raises. *)
Inductive Exception : Type :=
| IndexError
| KeyError
| TypeError
| UserError (what : string).

#[global] Instance Exception_eq_dec : EqDecision Exception.
Proof. solve_decision. Defined.

(** ** The monad of the embedded code: state passing over a world [W], with
    Python's exceptions *)

Section Monad.
Context {W : Type}.

(** How a call ends: it returns a value, it raises, or the model's bound on
    the recursion depth of [change_state] is exhausted. *)
Inductive Outcome (A : Type) : Type :=
| Returned (a : A) (w : W)
| Raised (e : Exception) (w : W)
| OutOfFuel.

#[global] Arguments Returned {A} a w.
#[global] Arguments Raised {A} e w.
#[global] Arguments OutOfFuel {A}.

Definition M (A : Type) : Type := W → Outcome A.

Definition ret {A : Type} (a : A) : M A := λ w, Returned a w.

Definition bind {A B : Type} (m : M A) (f : A → M B) : M B := λ w,
  match m w with
  | Returned a w' => f a w'
  | Raised e w' => Raised e w'
  | OutOfFuel => OutOfFuel
  end.

Definition raise {A : Type} (e : Exception) : M A := λ w, Raised e w.

Definition out_of_fuel {A : Type} : M A := λ _, OutOfFuel.

(** [try: m  except exc: ...]: [None] when [m] raised [exc] (the handler's
    turn), the value of [m] otherwise; other exceptions propagate. *)
Definition try_except {A : Type} (m : M A) (exc : Exception) : M (option A) := λ w,
  match m w with
  | Returned a w' => Returned (Some a) w'
  | Raised e w' => if decide (e = exc) then Returned None w' else Raised e w'
  | OutOfFuel => OutOfFuel
  end.

(** Python's [a and b] on driver results: [b] runs only when [a] is true. *)
Definition and_then (a b : M bool) : M bool :=
  bind a (λ x, if x then b else ret false).

End Monad.

#[global] Arguments Outcome : clear implicits.
#[global] Arguments M : clear implicits.

Declare Scope py_scope.
Delimit Scope py_scope with py.
Notation "x ← y ; z" := (bind y (λ x : _, z))
  (at level 20, y at level 100, z at level 200, only parsing) : py_scope.
Notation "' x ← y ; z" := (bind y (λ x : _, z))
  (at level 20, x pattern, y at level 100, z at level 200, only parsing) : py_scope.
Notation "x ;; z" := (bind x (λ _, z))
  (at level 100, z at level 200, only parsing, right associativity) : py_scope.
Local Open Scope py_scope.

(** ** The collaborators: the driver, the logger, the registry's types and
    the embedding application *)

(** The methods of [AppDriver] that the service manager calls, as a trace of
    the gestures issued (ghost state: it records the calls, in order). *)
Inductive DriverCall : Type :=
| PressBack
| ClickOnChat (chat_name : string)
| SearchChat (chat_name : string)
| TypeAndSend (text : string)
| ClickOnLastChatLink
| ClickOk
| GetNewChat
| GetNewMessages.

(** Severities of the records written to [system.logger]. *)
Inductive Level : Type := DEBUG | WARNING.

Record LogRecord : Type := { levelname : Level; msg : string }.

(** The gesture driver ([supbot.app_driver.AppDriver], an external
    collaborator): a state of the remote application and one transition per
    method, with the method's result. *)
Class AppDriver : Type := {
  driver_state : Type;
  drv_press_back : driver_state → driver_state;
  drv_click_on_chat : string → driver_state → bool * driver_state;
  drv_search_chat : string → driver_state → bool * driver_state;
  drv_type_and_send : string → driver_state → bool * driver_state;
  drv_click_on_last_chat_link : driver_state → bool * driver_state;
  drv_click_ok : driver_state → bool * driver_state;
  drv_get_new_chat : driver_state → option ChatHandle * driver_state;
  drv_get_new_messages : driver_state → list Message * driver_state
}.

(** The action kinds and payloads ([ActionName], the payload values and the
    payload types of [supbot/model.py] and [supbot/action.py]), with
    typeguard's conformance test and Python's [str()] for the log. *)
Class ActionTypes : Type := {
  ActionName : Type;
  ActionName_eq_dec :: EqDecision ActionName;
  ActionName_countable :: Countable ActionName;
  Data : Type;
  DataType : Type;
  conforms : Data → DataType → bool;
  enum_name : ActionName → string;
  str_name : ActionName → string;
  str_data : Data → string;
  str_type : DataType → string
}.

(** [Action] of [supbot/model.py]: a kind and its payload. *)
Record Action `{ActionTypes} : Type := { name : ActionName; data : Data }.

(** The embedding application ([Supbot], [supbot/api.py]): its own state and
    the table [events] of registered callbacks.  A callback runs in the
    application, which reaches the system through the action buffer (it may
    append actions): it is given the buffer and the application's state, and
    returns the new ones with the exception it raised, if any. *)
Class Supbot `{ActionTypes} : Type := {
  user_state : Type;
  events : Event →
    option (EventParams → list Action * user_state →
            (list Action * user_state) * option Exception)
}.

(** ** The world of the service manager *)

Section Model.
Context `{AppDriver} `{ActionTypes} `{!Supbot}.

(** Everything the service manager reads or writes: the driver with the
    trace of the calls made on it, the shared [System] (action buffer and
    logger), the events handed to [System.call_event] (ghost state) and the
    state of the embedding application.  The buffer is a Python list: its
    last element is the most recently appended one. *)
Record World : Type := {
  driver : driver_state;
  calls : list DriverCall;
  action_buffer : list Action;
  logger : list LogRecord;
  emitted : list (Event * EventParams);
  user : user_state
}.

Definition set_driver (d : driver_state) (c : DriverCall) (w : World) : World :=
  {| driver := d; calls := calls w ++ [c]; action_buffer := action_buffer w;
     logger := logger w; emitted := emitted w; user := user w |}.

Definition set_action_buffer (b : list Action) (w : World) : World :=
  {| driver := driver w; calls := calls w; action_buffer := b;
     logger := logger w; emitted := emitted w; user := user w |}.

Definition add_log (r : LogRecord) (w : World) : World :=
  {| driver := driver w; calls := calls w; action_buffer := action_buffer w;
     logger := logger w ++ [r]; emitted := emitted w; user := user w |}.

Definition add_emitted (e : Event * EventParams) (w : World) : World :=
  {| driver := driver w; calls := calls w; action_buffer := action_buffer w;
     logger := logger w; emitted := emitted w ++ [e]; user := user w |}.

Definition set_user (u : user_state) (w : World) : World :=
  {| driver := driver w; calls := calls w; action_buffer := action_buffer w;
     logger := logger w; emitted := emitted w; user := u |}.

(** *** The driver's methods, each recorded in [calls] *)

Definition driver_call {A : Type} (c : DriverCall)
    (f : driver_state → A * driver_state) : M World A := λ w,
  let '(a, d) := f (driver w) in Returned a (set_driver d c w).

Definition press_back : M World unit :=
  driver_call PressBack (λ d, (tt, drv_press_back d)).
Definition click_on_chat (chat_name : string) : M World bool :=
  driver_call (ClickOnChat chat_name) (drv_click_on_chat chat_name).
Definition search_chat (chat_name : string) : M World bool :=
  driver_call (SearchChat chat_name) (drv_search_chat chat_name).
Definition type_and_send (text : string) : M World bool :=
  driver_call (TypeAndSend text) (drv_type_and_send text).
Definition click_on_last_chat_link : M World bool :=
  driver_call ClickOnLastChatLink drv_click_on_last_chat_link.
Definition click_ok : M World bool :=
  driver_call ClickOk drv_click_ok.
Definition get_new_chat : M World (option ChatHandle) :=
  driver_call GetNewChat drv_get_new_chat.
Definition get_new_messages : M World (list Message) :=
  driver_call GetNewMessages drv_get_new_messages.

(** *** [system.logger] *)

Definition logger_debug (m : string) : M World unit := λ w,
  Returned tt (add_log {| levelname := DEBUG; msg := m |} w).
Definition logger_warning (m : string) : M World unit := λ w,
  Returned tt (add_log {| levelname := WARNING; msg := m |} w).

(** *** [System.call_event] (system.py, lines 105-113)

    The callback registered for the event, if there is one, is called with
    the parameters; what it raises propagates. *)
Definition call_event (event : Event) (params : EventParams) : M World unit := λ w,
  let w := add_emitted (event, params) w in
  let callback := events event in
  match callback with
  | Some callback =>
      let '((buffer, u), raised) := callback params (action_buffer w, user w) in
      let w := set_user u (set_action_buffer buffer w) in
      match raised with
      | None => Returned tt w
      | Some e => Raised e w
      end
  | None => Returned tt w
  end.

(** The registered callback, if any, returns normally on these parameters. *)
Definition callback_returns (event : Event) (params : EventParams) : Prop :=
  ∀ callback app, events event = Some callback → (callback params app).2 = None.

(** The world after [call_event] has returned: the event is recorded and the
    callback, if any, has updated the buffer and the application's state. *)
Definition delivered (event : Event) (params : EventParams) (w : World) : World :=
  let w := add_emitted (event, params) w in
  match events event with
  | Some callback =>
      let app := (callback params (action_buffer w, user w)).1 in
      set_user app.2 (set_action_buffer app.1 w)
  | None => w
  end.

(** *** [system.action_buffer.pop()]: removes and returns the last element;
    [IndexError] on an empty list. *)
Fixpoint list_pop {A : Type} (l : list A) : option (A * list A) :=
  match l with
  | [] => None
  | [a] => Some (a, [])
  | x :: l' =>
      match list_pop l' with
      | Some (a, r) => Some (a, x :: r)
      | None => None
      end
  end.

Definition action_buffer_pop : M World Action := λ w,
  match list_pop (action_buffer w) with
  | Some (a, rest) => Returned a (set_action_buffer rest w)
  | None => Raised IndexError w
  end.

(** ** [change_state] (service_manager.py, lines 73-128)

    [fuel] bounds the depth of the self-recursion: one unit per activation.
    The result is the pair [(0, _to)] on success and [(1, _from)] on
    failure; every path of the Python code that reaches no [return 0, _to]
    falls through to the final [return 1, _from]. *)
Fixpoint change_state_fuel (fuel : nat) (_from _to : GUIState) : M World (Z * GUIState) :=
  match fuel with
  | O => out_of_fuel
  | S fuel' =>
    match _to, _from with
    | Main, Chat _ =>
        press_back;;
        ret (0, _to)
    | Main, Main =>
        ret (1, _from)
    | Chat to_info, Main =>
        clicked ← click_on_chat to_info;
        if clicked then ret (0, _to) else
        logger_debug ("Couldn't find chat " +:+ to_info +:+ ", trying search bar");;
        searched ← search_chat to_info;
        if searched then
          clicked ← click_on_chat to_info;
          if clicked then ret (0, _to) else
          logger_debug ("Didn't find chat " +:+ to_info +:+ " in search, trying intent");;
          press_back;;
          press_back;;
          if Re.search_phone to_info then
            temp ← and_then (search_chat "!temp") (click_on_chat "!temp");
            if temp then
              link ← and_then (type_and_send ("wa.me/" +:+ to_info)) click_on_last_chat_link;
              if link then
                dialog ← click_ok;
                if negb dialog then ret (0, _to) else
                logger_debug (to_info +:+ " not found in Whatsapp");;
                ret (1, _from)
              else
                logger_warning
                  "This could lead to state mismatch, if that happens contact the dev";;
                press_back;;
                ret (1, _from)
            else
              logger_debug "Please create an empty group with `!temp` name";;
              ret (1, _from)
          else
            logger_debug (to_info +:+ " not a valid phone number");;
            ret (1, _from)
        else ret (1, _from)
    | Chat to_info, Chat from_info =>
        if decide (from_info ≠ to_info) then
          press_back;;
          change_state_fuel fuel' Main _to
        else ret (0, _to)
    end
  end.

(** The self-recursion is one level deep, as proved below, so two activations
    always suffice. *)
Definition change_state : GUIState → GUIState → M World (Z * GUIState) :=
  change_state_fuel 2.

(** The state that [change_state] returns with a failure: the source state,
    except between two different chats, where the back-navigation has been
    issued and the recursive call was given [Main] as its source. *)
Definition state_on_failure (_from _to : GUIState) : GUIState :=
  match _from, _to with
  | Chat x, Chat y => if decide (x = y) then _from else Main
  | _, _ => _from
  end.

(** ** [check_for_new_chat] (service_manager.py, lines 23-42) *)

(** [for m in messages: system.call_event(Event.MESSAGE_RECEIVED, (chat.name, m))] *)
Fixpoint for_messages (chat : ChatHandle) (messages : list Message) : M World unit :=
  match messages with
  | [] => ret tt
  | m :: rest =>
      call_event MESSAGE_RECEIVED (chat_name chat, m);;
      for_messages chat rest
  end.

(** The world after the events of the messages, in order, when each call of
    [call_event] has returned. *)
Definition delivered_all (chat : ChatHandle) (messages : list Message) (w : World)
    : World :=
  foldl (λ w m, delivered MESSAGE_RECEIVED (chat_name chat, m) w) w messages.

Definition check_for_new_chat (current : GUIState) : M World GUIState :=
  '(_, current) ← change_state current Main;
  chat ← get_new_chat;
  match chat with
  | Some chat =>
      '(_, current) ← change_state current (Chat (chat_name chat));
      messages ← get_new_messages;
      for_messages chat messages;;
      ret current
  | None => ret current
  end.

(** ** [execute_action] (service_manager.py, lines 46-70) *)

(** An entry of the registry [actions] of [supbot/action.py]: the payload
    type and the handler [run(driver, current, system, data)]; driver and
    system are the world. *)
Record ActionMeta : Type := {
  data_type : DataType;
  run : GUIState → Data → M World GUIState
}.

(** [d[k]] on a Python dict: [KeyError] when the key is absent. *)
Definition dict_getitem {V : Type} (d : gmap ActionName V) (k : ActionName) : M World V :=
  match d !! k with
  | Some v => ret v
  | None => raise KeyError
  end.

(** typeguard's [check_type(argname, value, expected_type)]: [TypeError] when
    the value does not conform to the type. *)
Definition check_type (argname : string) (value : Data) (expected_type : DataType)
    : M World unit :=
  if conforms value expected_type then ret tt else raise TypeError.

Section Dispatch.
(** The registry [supbot.action.actions]. *)
Variable actions : gmap ActionName ActionMeta.

Definition execute_action (current : GUIState) : M World GUIState :=
  popped ← try_except action_buffer_pop IndexError;
  match popped with
  | None => ret current
  | Some action =>
      meta ← dict_getitem actions (name action);
      checked ← try_except
        (check_type (enum_name (name action)) (data action) (data_type meta)) TypeError;
      match checked with
      | None =>
          logger_warning
            ("Action Data Typing incorrect for " +:+ str_name (name action) +:+
             " : got " +:+ str_data (data action) +:+
             " expected " +:+ str_type (data_type meta));;
          ret current
      | Some _ =>
          current ← run meta current (data action);
          ret current
      end
  end.

End Dispatch.

End Model.

(** ** [System]'s status flag (system.py, lines 59, 98-103, 115-127) *)

Module Status.

(** [self.status = 1] in [System.__init__]. *)
Definition init : Z := 1.

(** [System.quit]: [self.status = 0]. *)
Definition quit (status : Z) : Z := 0.

(** [System.is_on]: [self.status > 0]. *)
Definition is_on (status : Z) : bool := 0 <? status.

(** [System.has_started]: [self.status > 1]. *)
Definition has_started (status : Z) : bool := 1 <? status.

End Status.

(** ** The paths of [change_state] from [Main] to a chat *)

(** The paths through lines 93-119, from [Main] to [Chat x]: the code
    returned, the gestures issued and the records logged, in order. *)
Definition main_to_chat_path (x : string) (rc : Z) (l : list DriverCall)
    (r : list LogRecord) : Prop :=
  let tap := [ClickOnChat x; SearchChat x; ClickOnChat x] in
  let link := tap ++ [PressBack; PressBack; SearchChat "!temp"; ClickOnChat "!temp";
                      TypeAndSend ("wa.me/" +:+ x)] in
  let d1 := {| levelname := DEBUG;
               msg := "Couldn't find chat " +:+ x +:+ ", trying search bar" |} in
  let d2 := {| levelname := DEBUG;
               msg := "Didn't find chat " +:+ x +:+ " in search, trying intent" |} in
  (* line 94: the direct tap finds the chat *)
  (rc = 0 ∧ l = [ClickOnChat x] ∧ r = []) ∨
  (* line 98: the tap after the search finds it *)
  (rc = 0 ∧ l = tap ∧ r = [d1]) ∨
  (* line 109: the deep link opens the chat *)
  (rc = 0 ∧ Re.search_phone x = true ∧
     l = link ++ [ClickOnLastChatLink; ClickOk] ∧ r = [d1; d2]) ∨
  (* line 96: the search finds nothing *)
  (rc = 1 ∧ l = [ClickOnChat x; SearchChat x] ∧ r = [d1]) ∨
  (* line 119: not a phone number *)
  (rc = 1 ∧ Re.search_phone x = false ∧ l = tap ++ [PressBack; PressBack] ∧
     r = [d1; d2; {| levelname := DEBUG; msg := x +:+ " not a valid phone number" |}]) ∨
  (* line 117: no "!temp" group *)
  (rc = 1 ∧ Re.search_phone x = true ∧
     (l = tap ++ [PressBack; PressBack; SearchChat "!temp"] ∨
      l = tap ++ [PressBack; PressBack; SearchChat "!temp"; ClickOnChat "!temp"]) ∧
     r = [d1; d2; {| levelname := DEBUG;
                     msg := "Please create an empty group with `!temp` name" |}]) ∨
  (* lines 113-115: the link could not be sent or tapped *)
  (rc = 1 ∧ Re.search_phone x = true ∧
     (l = link ++ [PressBack] ∨ l = link ++ [ClickOnLastChatLink; PressBack]) ∧
     r = [d1; d2;
          {| levelname := WARNING;
             msg := "This could lead to state mismatch, if that happens contact the dev" |}]) ∨
  (* line 111: the dialog says that the number is unknown *)
  (rc = 1 ∧ Re.search_phone x = true ∧
     l = link ++ [ClickOnLastChatLink; ClickOk] ∧
     r = [d1; d2; {| levelname := DEBUG; msg := x +:+ " not found in Whatsapp" |}]).

(** ** A scripted platform, to run the model on concrete inputs *)

Module Scripted.

(** The scripted driver answers the gestures that return a truth value from
    a list, in order, and [false] once the list is used up; it shows one new
    chat, or none, and a fixed list of new messages. *)
Record Script : Type := {
  answers : list bool;
  new_chat : option ChatHandle;
  new_messages : list Message
}.

Definition answer (d : Script) : bool * Script :=
  match answers d with
  | [] => (false, d)
  | b :: rest =>
      (b, {| answers := rest; new_chat := new_chat d; new_messages := new_messages d |})
  end.

#[export] Instance scripted_driver : AppDriver := {|
  driver_state := Script;
  drv_press_back := λ d, d;
  drv_click_on_chat := λ _, answer;
  drv_search_chat := λ _, answer;
  drv_type_and_send := λ _, answer;
  drv_click_on_last_chat_link := answer;
  drv_click_ok := answer;
  drv_get_new_chat := λ d, (new_chat d, d);
  drv_get_new_messages := λ d, (new_messages d, d)
|}.

(** Payloads are Python strings or integers. *)
Inductive PyValue : Type := PyStr (s : string) | PyInt (z : Z).
Inductive PyType : Type := TStr | TInt.

Definition isinstance (v : PyValue) (t : PyType) : bool :=
  match v, t with
  | PyStr _, TStr => true
  | PyInt _, TInt => true
  | _, _ => false
  end.

#[export] Instance scripted_actions : ActionTypes := {|
  ActionName := string;
  Data := PyValue;
  DataType := PyType;
  conforms := isinstance;
  enum_name := λ n, n;
  str_name := λ n, "ActionName." +:+ n;
  str_data := λ v, match v with PyStr s => s | PyInt _ => "<int>" end;
  str_type := λ t, match t with TStr => "<class 'str'>" | TInt => "<class 'int'>" end
|}.

(** The application is an echo bot: its callback keeps the message it
    received and appends a "send_message" action that sends it back; it
    raises on an empty message. *)
Definition on_message (p : EventParams) (app : list Action * list EventParams)
    : (list Action * list EventParams) * option Exception :=
  match p.2 with
  | EmptyString => (app, Some (UserError "empty message"))
  | _ => ((app.1 ++ [{| name := "send_message"; data := PyStr p.2 |}], app.2 ++ [p]), None)
  end.

#[export] Instance scripted_supbot : Supbot := {|
  user_state := list EventParams;
  events := λ _, Some on_message
|}.

(** A registry with one kind, whose handler leaves the screen as it is. *)
Definition registry : gmap string ActionMeta :=
  {[ "send_message" := {| data_type := TStr; run := λ current _, ret current |} ]}.

Definition bob : ChatHandle := {| chat_name := "bob" |}.

Definition send_int : Action := {| name := "send_message"; data := PyInt 3 |}.
Definition send_text : Action := {| name := "send_message"; data := PyStr "hello" |}.
Definition unknown : Action := {| name := "no_such_action"; data := PyInt 3 |}.

Definition world (ans : list bool) (chat : option ChatHandle) (msgs : list Message)
    (buffer : list Action) : World :=
  {| driver := {| answers := ans; new_chat := chat; new_messages := msgs |};
     calls := []; action_buffer := buffer; logger := []; emitted := []; user := [] |}.

(** A chat identifier that is a phone number, and the answers of a driver on
    which only the deep link reaches it. *)
Definition phone : string := "12345678901".
Definition deep_link_answers : list bool :=
  [false; true; false; true; true; true; true; false].

End Scripted.

(** * Theorems *)

(** ** The pattern [\d{11,13}] *)

Import Re.









(** ** The reconciler, the checker and the dispatcher *)

Section Facts.
Context `{AppDriver} `{ActionTypes} `{!Supbot}.
Implicit Types (w : World) (x y : string) (_from _to current : GUIState).

(** Symbolic execution: unfold the monad and the driver's methods, then split
    on the answers of the driver. *)
Ltac unfold_py :=
  cbv [change_state change_state_fuel and_then click_on_chat search_chat press_back
       type_and_send click_on_last_chat_link click_ok get_new_chat get_new_messages
       driver_call logger_debug logger_warning bind ret out_of_fuel] in *;
  cbn in *.

Ltac driver_answer :=
  match goal with
  | |- context [drv_click_on_chat ?s ?d] =>
      destruct (drv_click_on_chat s d) as [[] ?] eqn:?
  | |- context [drv_search_chat ?s ?d] =>
      destruct (drv_search_chat s d) as [[] ?] eqn:?
  | |- context [drv_type_and_send ?s ?d] =>
      destruct (drv_type_and_send s d) as [[] ?] eqn:?
  | |- context [drv_click_on_last_chat_link ?d] =>
      destruct (drv_click_on_last_chat_link d) as [[] ?] eqn:?
  | |- context [drv_click_ok ?d] =>
      destruct (drv_click_ok d) as [[] ?] eqn:?
  | |- context [Re.search_phone ?s] =>
      destruct (Re.search_phone s) eqn:?
  end; cbn in *.

(** *** Recursion depth *)

(** From [Main] there is no recursive call: one activation is enough. *)
Lemma change_state_fuel_Main n _to w :
  change_state_fuel (S n) Main _to w = change_state_fuel 1 Main _to w.
Proof. by destruct _to. Qed.

Lemma change_state_fuel_enough n _from _to w :
  change_state_fuel (S (S n)) _from _to w = change_state _from _to w.
Proof.
  by destruct _from, _to.
Qed.

(** The recursive equation of the Python function holds of [change_state]. *)
Lemma change_state_between x y w :
  x ≠ y →
  change_state (Chat x) (Chat y) w = (press_back;; change_state Main (Chat y)) w.
Proof.
  intros Hne. unfold change_state at 1. cbn [change_state_fuel].
  by case_decide.
Qed.

(** *** Results of [change_state] *)

(** From [Main] the call returns, with [(0, _to)] or with [(1, Main)]. *)
Lemma change_state_from_Main _to w :
  ∃ w', change_state Main _to w = Returned (1, Main) w' ∨
        (change_state Main _to w = Returned (0, _to) w' ∧ ∃ x, _to = Chat x).
Proof.
  destruct _to as [|x]; [by exists w; left|].
  unfold_py. repeat driver_answer; eauto.
Qed.

(** [change_state] never touches the buffer, the emitted events or the
    application. *)
Lemma change_state_frame _from _to w r w' :
  change_state _from _to w = Returned r w' →
  action_buffer w' = action_buffer w ∧ emitted w' = emitted w ∧ user w' = user w.
Proof.
  destruct _from as [|x], _to as [|y].
  - by intros [= <- <-].
  - unfold_py. repeat driver_answer; by intros [= <- <-].
  - unfold_py. by intros [= <- <-].
  - destruct (decide (x = y)) as [->|Hne].
    + unfold change_state; cbn. case_decide; [done|]. by intros [= <- <-].
    + rewrite change_state_between by done.
      unfold_py. repeat driver_answer; by intros [= <- <-].
Qed.

(** What [change_state] returns: [(0, _to)], or [(1, s)] where [s] is the
    state that a failure leaves. *)
Lemma change_state_result _from _to w rc st w' :
  change_state _from _to w = Returned (rc, st) w' →
  (rc = 0 ∧ st = _to) ∨ (rc = 1 ∧ st = state_on_failure _from _to).
Proof.
  destruct _from as [|x], _to as [|y]; cbn [state_on_failure].
  - intros [= <- <- <-]; auto.
  - unfold_py. repeat driver_answer; intros [= <- <- <-]; auto.
  - unfold_py. intros [= <- <- <-]; auto.
  - destruct (decide (x = y)) as [->|Hne].
    + unfold change_state; cbn. case_decide; [done|]. intros [= <- <- <-]; auto.
    + rewrite change_state_between by done.
      unfold_py. repeat driver_answer; intros [= <- <- <-]; auto.
Qed.

(** To [Main] the call returns [Main], whatever the source. *)
Lemma change_state_to_Main current w :
  ∃ rc0 w1, change_state current Main w = Returned (rc0, Main) w1.
Proof. destruct current; unfold_py; eauto. Qed.

(** To the chat already shown nothing is done. *)
Lemma change_state_same x w :
  change_state (Chat x) (Chat x) w = Returned (0, Chat x) w.
Proof. unfold change_state; cbn. by case_decide. Qed.

(** C1 (amended): whenever [change_state] returns a failure, the returned
    state is the believed state [_from] it was called with, except from
    [Chat x] to [Chat y] with [x ≠ y], where it is [Main]. *)
Theorem change_state_failure_state _from _to w rc st w' :
  change_state _from _to w = Returned (rc, st) w' →
  rc ≠ 0 →
  st = state_on_failure _from _to.
Proof.
  intros Hrun Hrc. by destruct (change_state_result _ _ _ _ _ _ Hrun) as [[? _]|[_ ?]].
Qed.

(** C2 (amended): from [Main] to [Chat x], when the direct tap fails and the
    search returns true, the chat is tapped again, and the call succeeds if
    that tap does; the two back-navigations and the deep-link fallback are
    entered exactly when the search returned true and this second tap
    failed, and the fallback's first gesture, the search for "!temp", is
    issued exactly for an identifier that passes the test of line 104.
    When the search returns false the call fails with no further gesture. *)
Theorem change_state_search_then_tap x w d1 (searched : bool) d2 (clicked : bool) d3 :
  drv_click_on_chat x (driver w) = (false, d1) →
  drv_search_chat x d1 = (searched, d2) →
  drv_click_on_chat x d2 = (clicked, d3) →
  ∃ rc st w', change_state Main (Chat x) w = Returned (rc, st) w' ∧
    if searched then
      if clicked then
        (rc, st) = (0, Chat x) ∧ driver w' = d3 ∧
        calls w' = calls w ++ [ClickOnChat x; SearchChat x; ClickOnChat x]
      else
        ∃ more,
          calls w' = calls w ++ [ClickOnChat x; SearchChat x; ClickOnChat x;
                                 PressBack; PressBack] ++ more ∧
          if Re.search_phone x then ∃ more', more = SearchChat "!temp" :: more'
          else (rc, st) = (1, Main) ∧ more = []
    else
      (rc, st) = (1, Main) ∧ driver w' = d2 ∧
      calls w' = calls w ++ [ClickOnChat x; SearchChat x].
Proof.
  intros Hc1 Hs Hc2. unfold_py. rewrite Hc1; cbn. rewrite Hs.
  destruct searched; cbn.
  2: { eexists _, _, _; split; [reflexivity|]; cbn.
       by rewrite <- !(assoc_L (++)). }
  rewrite Hc2. destruct clicked; cbn.
  { eexists _, _, _; split; [reflexivity|]; cbn.
    by rewrite <- !(assoc_L (++)). }
  destruct (Re.search_phone x); cbn.
  - repeat driver_answer.
    all: eexists _, _, _; split; [reflexivity|]; cbn.
    all: eexists; rewrite <- !(assoc_L (++)); cbn; split; [reflexivity|]; by eexists.
  - eexists _, _, _; split; [reflexivity|]; cbn.
    exists []. by rewrite <- !(assoc_L (++)).
Qed.

(** C3: between two different chats, [change_state] issues one
    back-navigation and then is [change_state] from [Main] to the target, on
    the driver as the back-navigation left it. *)
Theorem change_state_between_chats x y w :
  x ≠ y →
  ∃ w1, press_back w = Returned tt w1 ∧
        calls w1 = calls w ++ [PressBack] ∧
        change_state (Chat x) (Chat y) w = change_state Main (Chat y) w1.
Proof.
  intros Hne. eexists. split; [done|]. split; [done|].
  by rewrite change_state_between.
Qed.

(** C8: to the chat already shown, [change_state] succeeds and leaves the
    world as it is: no call on the driver, nothing logged. *)
Theorem change_state_same_chat x w :
  change_state (Chat x) (Chat x) w = Returned (0, Chat x) w.
Proof. apply change_state_same. Qed.

(** C10: [change_state] returns on every input, and its self-recursion is at
    most one level deep: two activations always suffice, one suffices from
    [Main], and one does not suffice exactly between two different chats,
    the only case with a recursive call. *)
Theorem change_state_terminates :
  (∀ _from _to w, ∃ r w', change_state _from _to w = Returned r w') ∧
  (∀ n _from _to w, change_state_fuel (S (S n)) _from _to w = change_state _from _to w) ∧
  (∀ n _to w, change_state_fuel (S n) Main _to w = change_state Main _to w) ∧
  (∀ _from _to w, change_state_fuel 1 _from _to w = OutOfFuel ↔
                  ∃ x y, _from = Chat x ∧ _to = Chat y ∧ x ≠ y).
Proof.
  split_and!.
  - intros [|x] _to w.
    + destruct (change_state_from_Main _to w) as [w' [?|[? _]]]; eauto.
    + destruct _to as [|y]; [unfold_py; eauto|].
      destruct (decide (x = y)) as [->|Hne]; [rewrite change_state_same; eauto|].
      rewrite change_state_between by done. unfold bind. cbn.
      destruct (change_state_from_Main (Chat y)
                  (set_driver (drv_press_back (driver w)) PressBack w))
        as [w' [?|[? _]]]; eauto.
  - apply change_state_fuel_enough.
  - intros. by destruct _to.
  - intros [|x] [|y] w; split.
    all: try (intros (? & ? & ? & ? & ?); simplify_eq).
    all: try (unfold_py; repeat driver_answer; done).
    + cbn. case_decide; [eauto|done].
    + cbn. by case_decide.
Qed.

(** *** Events *)

Lemma call_event_returns event params w :
  callback_returns event params →
  call_event event params w = Returned tt (delivered event params w).
Proof.
  intros Hret. unfold call_event, delivered. cbn.
  destruct (events event) as [callback|] eqn:Hev; [|done].
  specialize (Hret callback (action_buffer w, user w) Hev).
  by destruct (callback params (action_buffer w, user w)) as [[buffer u] [e|]].
Qed.

Lemma for_messages_returns chat messages w :
  (∀ m, m ∈ messages → callback_returns MESSAGE_RECEIVED (chat_name chat, m)) →
  for_messages chat messages w = Returned tt (delivered_all chat messages w).
Proof.
  revert w; induction messages as [|m messages IH]; intros w Hret; [done|].
  cbn. unfold bind. rewrite call_event_returns by (apply Hret; left).
  apply IH. intros m' Hm'. apply Hret. by right.
Qed.

Lemma delivered_frame event params w :
  driver (delivered event params w) = driver w ∧
  calls (delivered event params w) = calls w ∧
  logger (delivered event params w) = logger w ∧
  emitted (delivered event params w) = emitted w ++ [(event, params)].
Proof. unfold delivered. by destruct (events event). Qed.

Lemma delivered_all_frame chat messages w :
  driver (delivered_all chat messages w) = driver w ∧
  calls (delivered_all chat messages w) = calls w ∧
  logger (delivered_all chat messages w) = logger w ∧
  emitted (delivered_all chat messages w) =
    emitted w ++ map (λ m, (MESSAGE_RECEIVED, (chat_name chat, m))) messages.
Proof.
  unfold delivered_all.
  revert w; induction messages as [|m messages IH]; intros w; cbn [foldl map].
  - by rewrite app_nil_r.
  - destruct (IH (delivered MESSAGE_RECEIVED (chat_name chat, m) w))
      as (-> & -> & -> & ->).
    destruct (delivered_frame MESSAGE_RECEIVED (chat_name chat, m) w)
      as (-> & -> & -> & ->).
    by rewrite <- (assoc_L (++)).
Qed.

Lemma driver_call_frame {A} c (f : driver_state → A * driver_state) w a w' :
  driver_call c f w = Returned a w' →
  f (driver w) = (a, driver w') ∧ calls w' = calls w ++ [c] ∧
  logger w' = logger w ∧ action_buffer w' = action_buffer w ∧
  emitted w' = emitted w ∧ user w' = user w.
Proof.
  unfold driver_call. destruct (f (driver w)) as [a' d]. by intros [= <- <-].
Qed.

(** *** [check_for_new_chat] *)

(** No new chat: the result is [Main] and nothing is emitted. *)
Lemma check_for_new_chat_none current w rc0 w1 w2 :
  change_state current Main w = Returned (rc0, Main) w1 →
  get_new_chat w1 = Returned None w2 →
  check_for_new_chat current w = Returned Main w2 ∧ emitted w2 = emitted w.
Proof.
  intros Hmain Hchat. unfold check_for_new_chat, bind. rewrite Hmain, Hchat.
  split; [done|].
  apply change_state_frame in Hmain as (_ & <- & _).
  by apply driver_call_frame in Hchat as (_ & _ & _ & _ & -> & _).
Qed.

(** A new chat: whatever the reconciliation into it returns, the new
    messages are fetched and one event is emitted per message, in the order
    of the list; the result is the state that the reconciliation returned. *)
Lemma check_for_new_chat_some current w rc0 w1 chat w2 rc st w3 messages w4 :
  change_state current Main w = Returned (rc0, Main) w1 →
  get_new_chat w1 = Returned (Some chat) w2 →
  change_state Main (Chat (chat_name chat)) w2 = Returned (rc, st) w3 →
  get_new_messages w3 = Returned messages w4 →
  (∀ m, m ∈ messages → callback_returns MESSAGE_RECEIVED (chat_name chat, m)) →
  check_for_new_chat current w = Returned st (delivered_all chat messages w4) ∧
  emitted (delivered_all chat messages w4) =
    emitted w ++ map (λ m, (MESSAGE_RECEIVED, (chat_name chat, m))) messages ∧
  calls (delivered_all chat messages w4) = calls w3 ++ [GetNewMessages].
Proof.
  intros Hmain Hchat Hinto Hmsgs Hret.
  unfold check_for_new_chat, bind. rewrite Hmain, Hchat, Hinto, Hmsgs.
  rewrite for_messages_returns by done. split; [done|].
  destruct (delivered_all_frame chat messages w4) as (_ & -> & _ & ->).
  apply change_state_frame in Hmain as (_ & <- & _).
  apply driver_call_frame in Hchat as (_ & _ & _ & _ & <- & _).
  apply change_state_frame in Hinto as (_ & <- & _).
  by apply driver_call_frame in Hmsgs as (_ & -> & _ & _ & -> & _).
Qed.

(** C4: when [check_for_new_chat] finds a new chat with the new messages
    [m1; m2; m3], it calls [change_state] from [Main] to that chat and then
    emits exactly three "message received" events carrying
    [(chat.name, m)], in the order [m1], [m2], [m3] (the callback, if one is
    registered, returning normally); when no new chat is found it emits
    nothing. *)
Theorem check_for_new_chat_emits_in_order current w rc0 w1 :
  change_state current Main w = Returned (rc0, Main) w1 →
  (∀ w2, get_new_chat w1 = Returned None w2 →
     check_for_new_chat current w = Returned Main w2 ∧ emitted w2 = emitted w) ∧
  (∀ chat w2 rc st w3 m1 m2 m3 w4,
     get_new_chat w1 = Returned (Some chat) w2 →
     change_state Main (Chat (chat_name chat)) w2 = Returned (rc, st) w3 →
     get_new_messages w3 = Returned [m1; m2; m3] w4 →
     (∀ m, m ∈ [m1; m2; m3] → callback_returns MESSAGE_RECEIVED (chat_name chat, m)) →
     ∃ w5, check_for_new_chat current w = Returned st w5 ∧
           (rc = 0 → st = Chat (chat_name chat)) ∧
           calls w5 = calls w3 ++ [GetNewMessages] ∧
           emitted w5 = emitted w ++ [(MESSAGE_RECEIVED, (chat_name chat, m1));
                                      (MESSAGE_RECEIVED, (chat_name chat, m2));
                                      (MESSAGE_RECEIVED, (chat_name chat, m3))]).
Proof.
  intros Hmain. split.
  - intros w2 Hchat. by eapply check_for_new_chat_none.
  - intros chat w2 rc st w3 m1 m2 m3 w4 Hchat Hinto Hmsgs Hret.
    destruct (check_for_new_chat_some _ _ _ _ _ _ _ _ _ _ _ Hmain Hchat Hinto Hmsgs Hret)
      as (Hrun & Hemitted & Hcalls).
    eexists. split_and!; [done| |done|done].
    intros ->. by destruct (change_state_result _ _ _ _ _ _ Hinto) as [[_ ?]|[? _]].
Qed.

(** C9: [check_for_new_chat] does not look at the success flag: when a new
    chat is found and [change_state] from [Main] into it fails, the new
    messages are still fetched, one "message received" event is emitted per
    message for that chat, and the result is [Main]. *)
Theorem check_for_new_chat_ignores_failure current w rc0 w1 chat w2 rc st w3 messages w4 :
  change_state current Main w = Returned (rc0, Main) w1 →
  get_new_chat w1 = Returned (Some chat) w2 →
  change_state Main (Chat (chat_name chat)) w2 = Returned (rc, st) w3 →
  rc ≠ 0 →
  get_new_messages w3 = Returned messages w4 →
  (∀ m, m ∈ messages → callback_returns MESSAGE_RECEIVED (chat_name chat, m)) →
  ∃ w5, check_for_new_chat current w = Returned Main w5 ∧
        calls w5 = calls w3 ++ [GetNewMessages] ∧
        emitted w5 =
          emitted w ++ map (λ m, (MESSAGE_RECEIVED, (chat_name chat, m))) messages.
Proof.
  intros Hmain Hchat Hinto Hrc Hmsgs Hret.
  destruct (check_for_new_chat_some _ _ _ _ _ _ _ _ _ _ _ Hmain Hchat Hinto Hmsgs Hret)
    as (Hrun & Hemitted & Hcalls).
  destruct (change_state_result _ _ _ _ _ _ Hinto) as [[? _]|[_ ->]]; [done|].
  eauto.
Qed.

(** *** [execute_action] *)

Lemma list_pop_app {A} (l : list A) (a : A) : list_pop (l ++ [a]) = Some (a, l).
Proof.
  induction l as [|x l IH]; [done|]. cbn [app list_pop]. rewrite IH.
  by destruct l.
Qed.

Lemma list_pop_None {A} (l : list A) : list_pop l = None ↔ l = [].
Proof.
  split; [|by intros ->]. destruct l as [|x l] using rev_ind; [done|].
  by rewrite list_pop_app.
Qed.

Section DispatchFacts.
Variable actions : gmap ActionName ActionMeta.

(** C6: when the payload of the popped action fails the check against the
    registered type, [execute_action] logs one warning, the action is gone
    from the buffer, and the state is returned unchanged; the rest of the
    world (driver, calls, events, application) is untouched, so no handler
    has run. *)
Theorem execute_action_type_mismatch current w action rest meta :
  action_buffer w = rest ++ [action] →
  actions !! name action = Some meta →
  conforms (data action) (data_type meta) = false →
  execute_action actions current w =
    Returned current
      (add_log
         {| levelname := WARNING;
            msg := "Action Data Typing incorrect for " +:+ str_name (name action) +:+
                   " : got " +:+ str_data (data action) +:+
                   " expected " +:+ str_type (data_type meta) |}
         (set_action_buffer rest w)).
Proof.
  intros Hbuf Hmeta Hbad.
  unfold execute_action, bind, try_except, action_buffer_pop, dict_getitem, check_type.
  rewrite Hbuf, list_pop_app. cbn. rewrite Hmeta. cbn. rewrite Hbad. cbn.
  by case_decide.
Qed.

(** C7: when the kind of the popped action is absent from the registry,
    [execute_action] raises [KeyError]: it does not return. *)
Theorem execute_action_unknown_kind current w action rest :
  action_buffer w = rest ++ [action] →
  actions !! name action = None →
  execute_action actions current w = Raised KeyError (set_action_buffer rest w).
Proof.
  intros Hbuf Hmeta.
  unfold execute_action, bind, try_except, action_buffer_pop, dict_getitem.
  rewrite Hbuf, list_pop_app. cbn. by rewrite Hmeta.
Qed.

End DispatchFacts.

End Facts.

(** ** Further properties of the reconciler and of the dispatcher *)

Section MoreFacts.
Context `{AppDriver} `{ActionTypes} `{!Supbot}.
Implicit Types (w : World) (x y : string) (_from _to current : GUIState).

(** X1: [change_state] returns 0 or 1, and with 0 the returned state is the
    target. *)
Theorem change_state_success_target _from _to w rc st w' :
  change_state _from _to w = Returned (rc, st) w' →
  (rc = 0 ∨ rc = 1) ∧ (rc = 0 → st = _to).
Proof.
  intros Hrun. destruct (change_state_result _ _ _ _ _ _ Hrun) as [[-> ->]|[-> _]].
  - auto.
  - split; [auto|done].
Qed.

Section MoreDispatchFacts.
Variable actions : gmap ActionName ActionMeta.

(** X2: on an empty buffer [execute_action] returns the state it was given
    and leaves the world as it is. *)
Theorem execute_action_empty_buffer current w :
  action_buffer w = [] →
  execute_action actions current w = Returned current w.
Proof.
  intros Hbuf. unfold execute_action, bind, try_except, action_buffer_pop.
  rewrite Hbuf. cbn. by case_decide.
Qed.

(** X3: when the payload conforms, [execute_action] pops the most recently
    appended action and is the handler's call on the remaining buffer. *)
Theorem execute_action_runs_handler current w action rest meta :
  action_buffer w = rest ++ [action] →
  actions !! name action = Some meta →
  conforms (data action) (data_type meta) = true →
  execute_action actions current w =
    run meta current (data action) (set_action_buffer rest w).
Proof.
  intros Hbuf Hmeta Hok.
  unfold execute_action, bind, try_except, action_buffer_pop, dict_getitem, check_type.
  rewrite Hbuf, list_pop_app. cbn. rewrite Hmeta. cbn. rewrite Hok. cbn.
  by destruct (run meta current (data action) (set_action_buffer rest w)).
Qed.

End MoreDispatchFacts.
End MoreFacts.

(** ** More on the pattern [\d{11,13}] *)







(** ** The status flag *)

(** X12: a started system is on; a fresh system is on and not started; after
    [quit] the system is neither on nor started. *)
Theorem status_lifecycle :
  (∀ status, Status.has_started status = true → Status.is_on status = true) ∧
  (Status.is_on Status.init = true ∧ Status.has_started Status.init = false) ∧
  (∀ status, Status.is_on (Status.quit status) = false ∧
             Status.has_started (Status.quit status) = false).
Proof.
  split_and!; try done.
  intros status. unfold Status.has_started, Status.is_on.
  rewrite !Z.ltb_lt. lia.
Qed.

(** ** What [change_state] does to the world *)

Section Traces.
Context `{AppDriver} `{ActionTypes} `{!Supbot}.
Implicit Types (w : World) (x y : string) (_from _to current : GUIState).

(** Run [change_state] symbolically, on every answer of the driver. *)
Ltac run_change_state :=
  cbv [change_state change_state_fuel and_then click_on_chat search_chat press_back
       type_and_send click_on_last_chat_link click_ok driver_call logger_debug
       logger_warning bind ret out_of_fuel] in *;
  cbn in *;
  repeat (match goal with
          | |- context [drv_click_on_chat ?s ?d] =>
              destruct (drv_click_on_chat s d) as [[] ?]
          | |- context [drv_search_chat ?s ?d] =>
              destruct (drv_search_chat s d) as [[] ?]
          | |- context [drv_type_and_send ?s ?d] =>
              destruct (drv_type_and_send s d) as [[] ?]
          | |- context [drv_click_on_last_chat_link ?d] =>
              destruct (drv_click_on_last_chat_link d) as [[] ?]
          | |- context [drv_click_ok ?d] =>
              destruct (drv_click_ok d) as [[] ?]
          | |- context [Re.search_phone ?s] =>
              destruct (Re.search_phone s) eqn:?
          end; cbn in *).

(** Split a hypothesis on the paths into its cases. *)
Ltac path_cases :=
  unfold main_to_chat_path in *;
  repeat match goal with
         | H : _ ∨ _ |- _ => destruct H
         | H : _ ∧ _ |- _ => destruct H
         | H : ∃ _, _ |- _ => destruct H
         end;
  simplify_eq; cbn in *.

(** Split a membership in an explicit list into its cases. *)
Ltac elem_cases :=
  repeat match goal with
         | H : _ ∈ [] |- _ => by apply elem_of_nil in H
         | H : _ ∈ _ :: _ |- _ => apply elem_of_cons in H as [H|H]
         | H : _ ∨ _ |- _ => destruct H
         end;
  simplify_eq.

(** Each run from [Main] to [Chat x] follows one of the paths, and leaves
    the buffer, the events and the application as they are. *)
Lemma change_state_paths x w rc st w' :
  change_state Main (Chat x) w = Returned (rc, st) w' →
  st = (if decide (rc = 0) then Chat x else Main) ∧
  action_buffer w' = action_buffer w ∧ emitted w' = emitted w ∧ user w' = user w ∧
  ∃ l r, calls w' = calls w ++ l ∧ logger w' = logger w ++ r ∧
         main_to_chat_path x rc l r.
Proof.
  unfold main_to_chat_path. run_change_state.
  all: intros [= <- <- <-]; cbn; split_and!; try reflexivity.
  all: rewrite <- ?(assoc_L (++)); cbn; eexists _, _.
  all: split; [reflexivity|].
  all: split; [first [reflexivity | exact (eq_sym (app_nil_r _))]|]; cbn.
  all: naive_solver.
Qed.

(** Every run of [change_state]: nothing done, one back-navigation, or a path
    from [Main], after one back-navigation when the source is another chat. *)
Lemma change_state_trace _from _to w rc st w' :
  change_state _from _to w = Returned (rc, st) w' →
  action_buffer w' = action_buffer w ∧ emitted w' = emitted w ∧ user w' = user w ∧
  ∃ l r, calls w' = calls w ++ l ∧ logger w' = logger w ++ r ∧
    ((l = [] ∧ r = [] ∧ (rc, st) = (if decide (_from = Main) then (1, Main) else (0, _to))) ∨
     (l = [PressBack] ∧ r = [] ∧ rc = 0 ∧ _to = Main) ∨
     (∃ x l0, _to = Chat x ∧ st = (if decide (rc = 0) then Chat x else Main) ∧
              main_to_chat_path x rc l0 r ∧
              ((_from = Main ∧ l = l0) ∨ ((∃ x', _from = Chat x') ∧ l = PressBack :: l0)))).
Proof.
  destruct _from as [|x'], _to as [|x].
  - intros [= <- <- <-]. split_and!; try done. exists [], [].
    rewrite !app_nil_r. split_and!; try done. by left.
  - intros Hrun. destruct (change_state_paths _ _ _ _ _ Hrun)
      as (? & ? & ? & ? & l & r & ? & ? & ?).
    split_and!; try done. exists l, r. split_and!; try done.
    right; right. exists x, l. split_and!; [done..|by left].
  - intros [= <- <- <-]. split_and!; try done. exists [PressBack], [].
    rewrite !app_nil_r. split_and!; try done. right; left. done.
  - destruct (decide (x' = x)) as [->|Hne].
    + rewrite change_state_same. intros [= <- <- <-]. split_and!; try done.
      exists [], []. rewrite !app_nil_r. split_and!; try done. by left.
    + rewrite change_state_between by done.
      unfold bind, press_back, driver_call. cbn. intros Hrun.
      destruct (change_state_paths _ _ _ _ _ Hrun)
        as (? & ? & ? & ? & l & r & Hcalls & Hlog & ?).
      cbn in Hcalls, Hlog. split_and!; try done. exists (PressBack :: l), r.
      rewrite Hcalls, <- (assoc_L (++)). split_and!; try done.
      right; right. exists x, l. split_and!; [done..|right; eauto].
Qed.

(** X6: [change_state] acts on the driver and on the log only.  It appends
    at most 11 gestures to the calls made on the driver (at most 10 when the
    source is [Main]) and at most 3 records to the log, and it leaves the
    action buffer, the emitted events and the application as they are. *)
Theorem change_state_effects _from _to w res w' :
  change_state _from _to w = Returned res w' →
  action_buffer w' = action_buffer w ∧ emitted w' = emitted w ∧ user w' = user w ∧
  ∃ l r, calls w' = calls w ++ l ∧ logger w' = logger w ++ r ∧
         (length l ≤ 11)%nat ∧ (_from = Main → (length l ≤ 10)%nat) ∧
         (length r ≤ 3)%nat.
Proof.
  destruct res as [rc st]. intros Hrun.
  destruct (change_state_trace _ _ _ _ _ _ Hrun) as (? & ? & ? & l & r & ? & ? & Hpath).
  split_and!; try done. exists l, r. split_and!; try done.
  all: path_cases; try intros [=]; lia.
Qed.

(** X7: the calls that a successful run from [Main] to [Chat x] makes are the
    direct tap alone, or the tap, the search and the second tap, or, for an
    identifier that passes the test of line 104, these followed by the two
    back-navigations and the five gestures of the deep link. *)
Theorem change_state_success_paths x w st w' l :
  change_state Main (Chat x) w = Returned (0, st) w' →
  calls w' = calls w ++ l →
  l = [ClickOnChat x] ∨
  l = [ClickOnChat x; SearchChat x; ClickOnChat x] ∨
  (Re.search_phone x = true ∧
   l = [ClickOnChat x; SearchChat x; ClickOnChat x; PressBack; PressBack;
        SearchChat "!temp"; ClickOnChat "!temp"; TypeAndSend ("wa.me/" +:+ x);
        ClickOnLastChatLink; ClickOk]).
Proof.
  intros Hrun Hcalls.
  destruct (change_state_paths _ _ _ _ _ Hrun) as (_ & _ & _ & _ & l' & r & Hl & _ & Hpath).
  rewrite Hl in Hcalls. apply (inj (app (calls w))) in Hcalls as <-.
  path_cases; auto.
Qed.

(** X8: the text of the deep link is typed only for a target that passes
    the test of line 104, and it is "wa.me/" followed by the whole
    identifier; the tap on the link and the tap on the dialog's button are
    made only for such a target. *)
Theorem change_state_deep_link_gated _from _to w res w' l :
  change_state _from _to w = Returned res w' →
  calls w' = calls w ++ l →
  (∀ t, TypeAndSend t ∈ l →
        ∃ x, _to = Chat x ∧ Re.search_phone x = true ∧ t = "wa.me/" +:+ x) ∧
  (ClickOnLastChatLink ∈ l ∨ ClickOk ∈ l →
        ∃ x, _to = Chat x ∧ Re.search_phone x = true).
Proof.
  destruct res as [rc st]. intros Hrun Hcalls.
  destruct (change_state_trace _ _ _ _ _ _ Hrun) as (_ & _ & _ & l' & r & Hl & _ & Hpath).
  rewrite Hl in Hcalls. apply (inj (app (calls w))) in Hcalls as <-.
  path_cases.
  all: split; [intros t Ht | intros Ht]; elem_cases; eauto.
Qed.

(** X9: a WARNING is logged only by a run that fails after the text of the
    deep link was typed: the run ends with one more back-navigation and
    returns [(1, Main)]. *)
Theorem change_state_warning _from _to w rc st w' r :
  change_state _from _to w = Returned (rc, st) w' →
  logger w' = logger w ++ r →
  (∃ m, {| levelname := WARNING; msg := m |} ∈ r) →
  rc = 1 ∧ st = Main ∧
  ∃ x l0, _to = Chat x ∧ calls w' = calls w ++ l0 ++ [PressBack] ∧
          TypeAndSend ("wa.me/" +:+ x) ∈ l0.
Proof.
  intros Hrun Hlog [m Hm].
  destruct (change_state_trace _ _ _ _ _ _ Hrun) as (_ & _ & _ & l & r' & Hl & Hr & Hpath).
  rewrite Hr in Hlog. apply (inj (app (logger w))) in Hlog as <-. rewrite Hl. clear Hl Hr.
  path_cases; elem_cases.
  all: split_and!; try done; eexists _, _; (split; [done|]).
  all: split;
    [ match goal with
      | |- _ ++ ?l = _ => change l with (removelast l ++ [PressBack]); reflexivity
      end
    | cbn; set_solver ].
Qed.

End Traces.

(** ** Callbacks that raise, and the gestures of [check_for_new_chat] *)

Section Polling.
Context `{AppDriver} `{ActionTypes} `{!Supbot}.
Implicit Types (w : World) (x y : string) (_from _to current : GUIState).

(** [call_event] records the event and leaves the driver, the calls and the
    log as they are, however it ends. *)
Lemma call_event_frame event params w :
  ∃ w', (call_event event params w = Returned tt w' ∨
         ∃ e, call_event event params w = Raised e w') ∧
        driver w' = driver w ∧ calls w' = calls w ∧ logger w' = logger w ∧
        emitted w' = emitted w ++ [(event, params)].
Proof.
  unfold call_event. cbn. destruct (events event) as [callback|]; [|eauto 10].
  destruct (callback params (action_buffer w, user w)) as [[buffer u] [e|]]; eauto 10.
Qed.

Lemma for_messages_frame chat messages w w' :
  for_messages chat messages w = Returned tt w' →
  driver w' = driver w ∧ calls w' = calls w ∧ logger w' = logger w ∧
  emitted w' = emitted w ++ map (λ m, (MESSAGE_RECEIVED, (chat_name chat, m))) messages.
Proof.
  revert w; induction messages as [|m messages IH]; intros w; cbn.
  - intros [= <-]. by rewrite app_nil_r.
  - unfold bind.
    destruct (call_event_frame MESSAGE_RECEIVED (chat_name chat, m) w)
      as (w1 & [->|[e ->]] & Hd & Hc & Hl & He); [|done].
    intros Hrest. destruct (IH _ Hrest) as (-> & -> & -> & ->).
    rewrite Hd, Hc, Hl, He. by rewrite <- (assoc_L (++)).
Qed.

(** The loop stops at the first message on which the callback raises. *)
Lemma for_messages_raises chat pre m post callback e w :
  (∀ m', m' ∈ pre → callback_returns MESSAGE_RECEIVED (chat_name chat, m')) →
  events MESSAGE_RECEIVED = Some callback →
  (∀ app, (callback (chat_name chat, m) app).2 = Some e) →
  ∃ w', for_messages chat (pre ++ m :: post) w = Raised e w' ∧
        calls w' = calls w ∧
        emitted w' = emitted w ++
          map (λ m, (MESSAGE_RECEIVED, (chat_name chat, m))) (pre ++ [m]).
Proof.
  intros Hpre Hev Hraise. revert w; induction pre as [|m' pre IH]; intros w.
  - cbn. unfold bind, call_event. cbn. rewrite Hev.
    specialize (Hraise (action_buffer w, user w)).
    destruct (callback (chat_name chat, m) (action_buffer w, user w)) as [[buffer u] raised].
    cbn in Hraise. subst raised. by eexists.
  - cbn. unfold bind. rewrite call_event_returns by (apply Hpre; left).
    destruct (IH (λ m'' Hm'', Hpre m'' (list_elem_of_further _ _ _ Hm''))
                 (delivered MESSAGE_RECEIVED (chat_name chat, m') w))
      as (w' & -> & Hc & He).
    destruct (delivered_frame MESSAGE_RECEIVED (chat_name chat, m') w)
      as (_ & Hc' & _ & He').
    exists w'. rewrite Hc, He, Hc', He'. by rewrite <- (assoc_L (++)).
Qed.

(** X10: when the registered callback raises on one of the new messages,
    [check_for_new_chat] raises that exception: the events of the messages up
    to that one have been emitted, those of the later messages are not, and
    no state is returned. *)
Theorem check_for_new_chat_callback_raises
    current w rc0 w1 chat w2 rc st w3 pre m post w4 callback e :
  change_state current Main w = Returned (rc0, Main) w1 →
  get_new_chat w1 = Returned (Some chat) w2 →
  change_state Main (Chat (chat_name chat)) w2 = Returned (rc, st) w3 →
  get_new_messages w3 = Returned (pre ++ m :: post) w4 →
  (∀ m', m' ∈ pre → callback_returns MESSAGE_RECEIVED (chat_name chat, m')) →
  events MESSAGE_RECEIVED = Some callback →
  (∀ app, (callback (chat_name chat, m) app).2 = Some e) →
  ∃ w5, check_for_new_chat current w = Raised e w5 ∧
        calls w5 = calls w3 ++ [GetNewMessages] ∧
        emitted w5 = emitted w ++
          map (λ m, (MESSAGE_RECEIVED, (chat_name chat, m))) (pre ++ [m]).
Proof.
  intros Hmain Hchat Hinto Hmsgs Hpre Hev Hraise.
  unfold check_for_new_chat, bind. rewrite Hmain, Hchat, Hinto, Hmsgs.
  destruct (for_messages_raises chat pre m post callback e w4 Hpre Hev Hraise)
    as (w5 & -> & Hc & He).
  exists w5. split; [done|]. rewrite Hc, He.
  apply change_state_frame in Hmain as (_ & <- & _).
  apply driver_call_frame in Hchat as (_ & _ & _ & _ & <- & _).
  apply change_state_frame in Hinto as (_ & <- & _).
  by apply driver_call_frame in Hmsgs as (_ & -> & _ & _ & -> & _).
Qed.

(** X11: the gestures of a poll that returns.  It first leaves the chat it
    is in, if any, by one back-navigation, then asks for a new chat; when
    there is one, the gestures of [change_state] into it follow, and the
    request for the new messages is the last one.  With no new chat nothing
    is emitted and the result is [Main]. *)
Theorem check_for_new_chat_gestures current w st w' :
  check_for_new_chat current w = Returned st w' →
  ∃ l, calls w' =
         calls w ++ (if decide (current = Main) then [] else [PressBack]) ++ GetNewChat :: l ∧
       ((l = [] ∧ st = Main ∧ emitted w' = emitted w) ∨
        (∃ l0, l = l0 ++ [GetNewMessages] ∧ (length l0 ≤ 10)%nat)).
Proof.
  unfold check_for_new_chat, bind.
  destruct (change_state_to_Main current w) as (rc0 & w1 & Hmain). rewrite Hmain.
  assert (calls w1 = calls w ++ (if decide (current = Main) then [] else [PressBack]) ∧
          emitted w1 = emitted w) as [Hc1 He1].
  { destruct current; cbn in Hmain; injection Hmain as <- <-; cbn;
      by rewrite ?app_nil_r. }
  destruct (get_new_chat w1) as [[chat|] w2| |] eqn:Hchat; [| |done..].
  - apply driver_call_frame in Hchat as (_ & Hc2 & _ & _ & He2 & _).
    destruct (change_state Main (Chat (chat_name chat)) w2) as [[rc st'] w3| |] eqn:Hinto;
      [|done..].
    destruct (change_state_effects _ _ _ _ _ Hinto)
      as (_ & He3 & _ & l0 & r & Hc3 & _ & _ & Hlen & _).
    destruct (get_new_messages w3) as [messages w4| |] eqn:Hmsgs; [|done..].
    apply driver_call_frame in Hmsgs as (_ & Hc4 & _ & _ & He4 & _).
    destruct (for_messages chat messages w4) as [[] w5| |] eqn:Hfor; [|done..].
    intros [= <- <-]. apply for_messages_frame in Hfor as (_ & Hc5 & _ & _).
    exists (l0 ++ [GetNewMessages]). split; [|right; eauto].
    rewrite Hc5, Hc4, Hc3, Hc2, Hc1. by rewrite <- !(assoc_L (++)).
  - intros [= <- <-]. apply driver_call_frame in Hchat as (_ & Hc2 & _ & _ & He2 & _).
    exists []. split; [|left; split_and!; congruence].
    rewrite Hc2, Hc1. by rewrite <- !(assoc_L (++)).
Qed.

(** ** What [execute_action] raises *)

Lemma list_pop_Some {A} (l : list A) a r : list_pop l = Some (a, r) ↔ l = r ++ [a].
Proof.
  split; [|intros ->; apply list_pop_app].
  destruct l as [|x l] using rev_ind; [done|].
  rewrite list_pop_app. by intros [= <- <-].
Qed.

Section Raising.
Variable actions : gmap ActionName ActionMeta.

(** X4: an exception leaves [execute_action] in two ways only: the kind of
    the popped action is not registered, and it is [KeyError]; or the payload
    conforms and the handler raised it.  The [IndexError] of the empty
    buffer and the [TypeError] of the payload check never leave it. *)
Theorem execute_action_raises current w e w' :
  execute_action actions current w = Raised e w' →
  ∃ action rest, action_buffer w = rest ++ [action] ∧
    ((actions !! name action = None ∧ e = KeyError ∧ w' = set_action_buffer rest w) ∨
     (∃ meta, actions !! name action = Some meta ∧
              conforms (data action) (data_type meta) = true ∧
              run meta current (data action) (set_action_buffer rest w) = Raised e w')).
Proof.
  unfold execute_action, bind, try_except, action_buffer_pop, dict_getitem, check_type.
  destruct (list_pop (action_buffer w)) as [[action rest]|] eqn:Hpop; cbn;
    [|by case_decide].
  apply list_pop_Some in Hpop. intros Hrun. exists action, rest. split; [done|].
  destruct (actions !! name action) as [meta|]; cbn in Hrun.
  - right. exists meta. split; [done|].
    destruct (conforms (data action) (data_type meta)); cbn in Hrun.
    + split; [done|].
      by destruct (run meta current (data action) (set_action_buffer rest w)).
    + by case_decide.
  - left. by injection Hrun as <- <-.
Qed.

End Raising.
End Polling.

(** ** The theorems on the scripted platform *)

Import Scripted.

(** C1, counterexample: from [Chat "a"] to [Chat "b"], on a driver that finds
    nothing, [change_state] returns the failure [(1, Main)]: the returned
    state is not the source state [Chat "a"]. *)
Lemma change_state_failure_not_from :
  ∃ w', change_state (Chat "a") (Chat "b") (world [] None [] []) = Returned (1, Main) w' ∧
        calls w' = [PressBack; ClickOnChat "b"; SearchChat "b"] ∧
        Main ≠ Chat "a".
Proof. eexists. split; [reflexivity|]. split; [reflexivity|]. discriminate. Qed.

(** C1 on the same input: the failure leaves [Main]. *)
Lemma change_state_failure_state_witness :
  ∃ w', change_state (Chat "a") (Chat "b") (world [] None [] []) = Returned (1, Main) w' ∧
        1 ≠ 0 ∧ Main = state_on_failure (Chat "a") (Chat "b").
Proof.
  eexists. split; [reflexivity|]. split; [lia|].
  eapply (change_state_failure_state (Chat "a") (Chat "b") (world [] None [] []));
    [reflexivity | lia].
Defined.

(** C2, counterexample: the direct tap on "bob" fails, the search returns
    true, and the tap that follows fails: [change_state] goes back twice and
    returns the failure [(1, Main)], although the search surfaced the chat.
    And when the search returns false, no back-navigation is issued. *)
Lemma change_state_search_true_tap_fails :
  (∃ w', change_state Main (Chat "bob") (world [false; true; false] None [] [])
           = Returned (1, Main) w' ∧
         calls w' = [ClickOnChat "bob"; SearchChat "bob"; ClickOnChat "bob";
                     PressBack; PressBack]) ∧
  (∃ w', change_state Main (Chat "bob") (world [false; false] None [] [])
           = Returned (1, Main) w' ∧
         calls w' = [ClickOnChat "bob"; SearchChat "bob"]).
Proof. split; eexists; split; reflexivity. Qed.

(** C2 where the search returns true and the tap that follows succeeds. *)
Lemma change_state_search_then_tap_witness :
  ∃ rc st w', change_state Main (Chat "bob") (world [false; true; true] None [] [])
                = Returned (rc, st) w' ∧
              (rc, st) = (0, Chat "bob") ∧
              driver w' = {| answers := []; new_chat := None; new_messages := [] |} ∧
              calls w' = [ClickOnChat "bob"; SearchChat "bob"; ClickOnChat "bob"].
Proof.
  exact (change_state_search_then_tap "bob" (world [false; true; true] None [] [])
           {| answers := [true; true]; new_chat := None; new_messages := [] |} true
           {| answers := [true]; new_chat := None; new_messages := [] |} true
           {| answers := []; new_chat := None; new_messages := [] |}
           eq_refl eq_refl eq_refl).
Defined.

(** C3 from [Chat "a"] to [Chat "b"]. *)
Lemma change_state_between_chats_witness :
  "a" ≠ "b" ∧
  ∃ w1, press_back (world [true] None [] []) = Returned tt w1 ∧
        calls w1 = [PressBack] ∧
        change_state (Chat "a") (Chat "b") (world [true] None [] [])
          = change_state Main (Chat "b") w1.
Proof.
  split; [discriminate|].
  apply (change_state_between_chats "a" "b" (world [true] None [] [])). discriminate.
Defined.

(** The echo callback returns normally on a message that is not empty. *)
Lemma on_message_returns (messages : list Message) :
  "" ∉ messages →
  ∀ m, m ∈ messages → callback_returns MESSAGE_RECEIVED (chat_name bob, m).
Proof.
  intros Hne m Hm callback app [= <-]. destruct m; [done|reflexivity].
Qed.

(** C4 on a new chat "bob" with three messages, found by the direct tap. *)
Lemma check_for_new_chat_emits_in_order_witness :
  ∃ w5, check_for_new_chat (Chat "a") (world [true] (Some bob) ["m1"; "m2"; "m3"] [])
          = Returned (Chat "bob") w5 ∧
        (0 = 0 → Chat "bob" = Chat (chat_name bob)) ∧
        calls w5 = [PressBack; GetNewChat; ClickOnChat "bob"] ++ [GetNewMessages] ∧
        emitted w5 = [] ++ [(MESSAGE_RECEIVED, ("bob", "m1"));
                            (MESSAGE_RECEIVED, ("bob", "m2"));
                            (MESSAGE_RECEIVED, ("bob", "m3"))].
Proof.
  refine (proj2 (check_for_new_chat_emits_in_order (Chat "a")
            (world [true] (Some bob) ["m1"; "m2"; "m3"] []) 0 _ eq_refl)
          bob _ 0 (Chat "bob") _ "m1" "m2" "m3" _ eq_refl eq_refl eq_refl _).
  apply on_message_returns. compute_done.
Defined.

(** C9 on a new chat "bob" that neither the tap nor the search finds. *)
Lemma check_for_new_chat_ignores_failure_witness :
  ∃ w5, check_for_new_chat (Chat "a") (world [false; false] (Some bob) ["hi"; "there"] [])
          = Returned Main w5 ∧
        calls w5 = [PressBack; GetNewChat; ClickOnChat "bob"; SearchChat "bob"]
                   ++ [GetNewMessages] ∧
        emitted w5 = [] ++ map (λ m, (MESSAGE_RECEIVED, (chat_name bob, m))) ["hi"; "there"].
Proof.
  refine (check_for_new_chat_ignores_failure (Chat "a")
            (world [false; false] (Some bob) ["hi"; "there"] []) 0 _ bob _ 1 Main _
            ["hi"; "there"] _ eq_refl eq_refl eq_refl _ eq_refl _).
  - lia.
  - apply on_message_returns. compute_done.
Defined.

(** C6 on a "send_message" action whose payload is an integer. *)
Lemma execute_action_type_mismatch_witness :
  execute_action registry (Chat "a") (world [] None [] [unknown; send_int]) =
    Returned (Chat "a")
      (add_log
         {| levelname := WARNING;
            msg := "Action Data Typing incorrect for ActionName.send_message : got <int> expected <class 'str'>" |}
         (world [] None [] [unknown])).
Proof.
  exact (execute_action_type_mismatch registry (Chat "a")
           (world [] None [] [unknown; send_int]) send_int [unknown]
           {| data_type := TStr; run := λ current _, ret current |}
           eq_refl eq_refl eq_refl).
Defined.

(** C7 on an action of a kind that the registry does not hold. *)
Lemma execute_action_unknown_kind_witness :
  execute_action registry (Chat "a") (world [] None [] [send_int; unknown]) =
    Raised KeyError (world [] None [] [send_int]).
Proof.
  exact (execute_action_unknown_kind registry (Chat "a")
           (world [] None [] [send_int; unknown]) unknown [send_int] eq_refl eq_refl).
Defined.

(** X1 on a direct tap that succeeds. *)
Lemma change_state_success_target_witness :
  ∃ w', change_state Main (Chat "bob") (world [true] None [] []) = Returned (0, Chat "bob") w' ∧
        (0 = 0 ∨ 0 = 1) ∧ (0 = 0 → Chat "bob" = Chat "bob").
Proof.
  eexists. split; [reflexivity|].
  eapply (change_state_success_target Main (Chat "bob") (world [true] None [] [])).
  reflexivity.
Defined.

(** X2 on the scripted platform. *)
Lemma execute_action_empty_buffer_witness :
  execute_action registry Main (world [] None [] []) = Returned Main (world [] None [] []).
Proof.
  exact (execute_action_empty_buffer registry Main (world [] None [] []) eq_refl).
Defined.

(** X3: the handler of "send_message" leaves the screen as it is. *)
Lemma execute_action_runs_handler_witness :
  execute_action registry (Chat "a") (world [] None [] [unknown; send_text]) =
    Returned (Chat "a") (world [] None [] [unknown]).
Proof.
  exact (execute_action_runs_handler registry (Chat "a")
           (world [] None [] [unknown; send_text]) send_text [unknown]
           {| data_type := TStr; run := λ current _, ret current |}
           eq_refl eq_refl eq_refl).
Defined.

(** ** The further properties on the scripted platform *)

(** X6 on the deep link: the driver finds the chat by neither tap, opens the
    "!temp" group, sends the link, taps it, and no dialog appears. *)
Lemma change_state_effects_witness :
  ∃ w', change_state Main (Chat phone) (world deep_link_answers None [] [])
          = Returned (0, Chat phone) w' ∧
        action_buffer w' = [] ∧ emitted w' = [] ∧ user w' = [] ∧
        ∃ l r, calls w' = [] ++ l ∧ logger w' = [] ++ r ∧
               (length l ≤ 11)%nat ∧ (Main = Main → (length l ≤ 10)%nat) ∧
               (length r ≤ 3)%nat.
Proof.
  eexists. split; [vm_compute; reflexivity|].
  apply (change_state_effects Main (Chat phone) (world deep_link_answers None [] [])
           (0, Chat phone)).
  vm_compute; reflexivity.
Defined.

(** X7 on the deep link. *)
Lemma change_state_success_paths_witness :
  ∃ w' l, change_state Main (Chat phone) (world deep_link_answers None [] [])
            = Returned (0, Chat phone) w' ∧
          calls w' = [] ++ l ∧ length l = 10%nat ∧
          (l = [ClickOnChat phone] ∨
           l = [ClickOnChat phone; SearchChat phone; ClickOnChat phone] ∨
           (Re.search_phone phone = true ∧
            l = [ClickOnChat phone; SearchChat phone; ClickOnChat phone; PressBack; PressBack;
                 SearchChat "!temp"; ClickOnChat "!temp"; TypeAndSend ("wa.me/" +:+ phone);
                 ClickOnLastChatLink; ClickOk])).
Proof.
  eexists _, _. split; [vm_compute; reflexivity|].
  split; [vm_compute; reflexivity|]. split; [reflexivity|].
  eapply (change_state_success_paths phone (world deep_link_answers None [] [])
            (Chat phone)); vm_compute; reflexivity.
Defined.

(** X8 on the deep link, from another chat. *)
Lemma change_state_deep_link_gated_witness :
  ∃ w' l, change_state (Chat "a") (Chat phone) (world deep_link_answers None [] [])
            = Returned (0, Chat phone) w' ∧
          calls w' = [] ++ l ∧
          TypeAndSend "wa.me/12345678901" ∈ l ∧
          (∀ t, TypeAndSend t ∈ l →
                ∃ x, Chat phone = Chat x ∧ Re.search_phone x = true ∧ t = "wa.me/" +:+ x) ∧
          (ClickOnLastChatLink ∈ l ∨ ClickOk ∈ l →
                ∃ x, Chat phone = Chat x ∧ Re.search_phone x = true).
Proof.
  eexists _, _. split; [vm_compute; reflexivity|].
  split; [vm_compute; reflexivity|].
  split; [do 8 apply list_elem_of_further; apply list_elem_of_here|].
  eapply (change_state_deep_link_gated (Chat "a") (Chat phone)
            (world deep_link_answers None [] []) (0, Chat phone)); vm_compute; reflexivity.
Defined.

(** X9 where the text of the link cannot be sent. *)
Lemma change_state_warning_witness :
  ∃ w' r, change_state Main (Chat phone)
            (world [false; true; false; true; true; false] None [] [])
            = Returned (1, Main) w' ∧
          logger w' = [] ++ r ∧
          (∃ m, {| levelname := WARNING; msg := m |} ∈ r) ∧
          1 = 1 ∧ Main = Main ∧
          ∃ x l0, Chat phone = Chat x ∧ calls w' = [] ++ l0 ++ [PressBack] ∧
                  TypeAndSend ("wa.me/" +:+ x) ∈ l0.
Proof.
  eexists _, _. split; [vm_compute; reflexivity|]. split; [vm_compute; reflexivity|].
  assert (∃ m, {| levelname := WARNING; msg := m |} ∈
            [ {| levelname := DEBUG;
                 msg := "Couldn't find chat " +:+ phone +:+ ", trying search bar" |};
              {| levelname := DEBUG;
                 msg := "Didn't find chat " +:+ phone +:+ " in search, trying intent" |};
              {| levelname := WARNING;
                 msg := "This could lead to state mismatch, if that happens contact the dev" |} ])
    as Hwarn.
  { eexists. do 2 apply list_elem_of_further. apply list_elem_of_here. }
  split; [exact Hwarn|].
  eapply (change_state_warning Main (Chat phone)
            (world [false; true; false; true; true; false] None [] []) 1 Main);
    [vm_compute; reflexivity | vm_compute; reflexivity | exact Hwarn].
Defined.

(** X10 on the messages "m1", "" and "m3": the callback raises on the second
    one, and the third is never delivered. *)
Lemma check_for_new_chat_callback_raises_witness :
  ∃ w5, check_for_new_chat (Chat "a") (world [true] (Some bob) ["m1"; ""; "m3"] [])
          = Raised (UserError "empty message") w5 ∧
        calls w5 = [PressBack; GetNewChat; ClickOnChat "bob"] ++ [GetNewMessages] ∧
        emitted w5 = [] ++ map (λ m, (MESSAGE_RECEIVED, (chat_name bob, m))) (["m1"] ++ [""]).
Proof.
  refine (check_for_new_chat_callback_raises (Chat "a")
            (world [true] (Some bob) ["m1"; ""; "m3"] []) 0 _ bob _ 0 (Chat "bob") _
            ["m1"] "" ["m3"] _ on_message (UserError "empty message")
            eq_refl eq_refl eq_refl eq_refl _ eq_refl _).
  - apply on_message_returns. compute_done.
  - intros app. reflexivity.
Defined.

(** X11 on a new chat with one message, from another chat. *)
Lemma check_for_new_chat_gestures_witness :
  ∃ w', check_for_new_chat (Chat "a") (world [true] (Some bob) ["m1"] [])
          = Returned (Chat "bob") w' ∧
        ∃ l, calls w' = [] ++ (if decide (Chat "a" = Main) then [] else [PressBack])
                           ++ GetNewChat :: l ∧
             ((l = [] ∧ Chat "bob" = Main ∧ emitted w' = []) ∨
              (∃ l0, l = l0 ++ [GetNewMessages] ∧ (length l0 ≤ 10)%nat)).
Proof.
  eexists. split; [vm_compute; reflexivity|].
  apply (check_for_new_chat_gestures (Chat "a") (world [true] (Some bob) ["m1"] [])
           (Chat "bob")).
  vm_compute; reflexivity.
Defined.

(** X4 on an action of a kind that the registry does not hold. *)
Lemma execute_action_raises_witness :
  ∃ action rest,
    action_buffer (world [] None [] [send_int; unknown]) = rest ++ [action] ∧
    ((registry !! name action = None ∧ KeyError = KeyError ∧
      world [] None [] [send_int] = set_action_buffer rest (world [] None [] [send_int; unknown])) ∨
     (∃ meta, registry !! name action = Some meta ∧
              conforms (data action) (data_type meta) = true ∧
              run meta (Chat "a") (data action)
                (set_action_buffer rest (world [] None [] [send_int; unknown]))
              = Raised KeyError (world [] None [] [send_int]))).
Proof.
  exact (execute_action_raises registry (Chat "a") (world [] None [] [send_int; unknown])
           KeyError (world [] None [] [send_int]) eq_refl).
Defined.
